(** * Automated mine ventilation door, control sketch v2.0

    A shallow embedding of [automated_ventilation_door_v2.ino]: the global
    variables of the sketch, the Arduino calls it makes ([millis],
    [digitalRead], [digitalWrite], [pinMode], [Serial.println]) and the two
    entry points [setup] and [loop], followed by the properties of the door
    state machine.  Code runs in a small monad that threads the machine,
    reads the clock and collects what the code sends out (pin writes and
    serial lines) in order.

    Conventions.
    - [unsigned long] is 32 bits wide on the targeted boards; a timestamp is
      a [Z] and the subtraction [millis() - t] is written out with its
      wrap-around ([ulong_sub]).
    - [millis()] may return a different value at every call; the readings
      come from a clock oracle indexed by the number of calls made so far.
      The per-cycle [now] of the design document is the special case of a
      clock that does not tick while one pass of [loop] runs ([evaluate]). *)

From Stdlib Require Import ZArith List String Bool Lia.
Import ListNotations.
Local Open Scope Z_scope.

(** ** The Arduino core, as far as the sketch uses it *)

Module Arduino.

Inductive Level : Set := LOW | HIGH.
Inductive PinMode : Set := INPUT | OUTPUT.

Definition Level_eqb (a b : Level) : bool :=
  match a, b with
  | LOW, LOW | HIGH, HIGH => true
  | _, _ => false
  end.

(** [unsigned long]: 32 bits. *)
Definition ulong_modulus : Z := 2 ^ 32.

(** [a - b] on two [unsigned long] operands. *)
Definition ulong_sub (a b : Z) : Z := (a - b) mod ulong_modulus.

(** Conversion of a [long] operand that meets an [unsigned long] one in a
    comparison (usual arithmetic conversions). *)
Definition ulong_of_long (x : Z) : Z := x mod ulong_modulus.

(** [millis()] counts the milliseconds since the board began running the
    program: the clock reads 0 at process start. *)
Definition millis_at_start : Z := 0.

End Arduino.
Export Arduino.

(** ** Pins and configuration constants *)

Definition OBSTACLE_IR_PIN_1 : Z := 7.
Definition OBSTACLE_IR_PIN_2 : Z := 8.
Definition DOOR_MOTOR_RELAY_PIN : Z := 13.
Definition STATUS_LIGHT_RELAY_PIN : Z := 12.
Definition BUZZER_PIN : Z := 4.

Definition DOOR_TRAVEL_TIME_MS : Z := 15000.
Definition DOOR_OPEN_DURATION_MS : Z := 10000.
Definition MOTION_SENSITIVITY_THRESHOLD : Z := 1.

(** ** State management *)

Inductive DoorState : Set := CLOSED | OPENING | OPEN | CLOSING.

Definition DoorState_eqb (a b : DoorState) : bool :=
  match a, b with
  | CLOSED, CLOSED | OPENING, OPENING | OPEN, OPEN | CLOSING, CLOSING => true
  | _, _ => false
  end.

(** The enumerator values the compiler assigns. *)
Definition DoorState_value (s : DoorState) : Z :=
  match s with CLOSED => 0 | OPENING => 1 | OPEN => 2 | CLOSING => 3 end.

Definition all_DoorStates : list DoorState := [CLOSED; OPENING; OPEN; CLOSING].

(** The machine: the three global variables of the sketch, the pin
    directions and levels, and how many times [millis()] has been called. *)
Record Machine : Type := mkMachine {
  currentDoorState : DoorState;
  stateChangeTimestamp : Z;
  lastMotionDetectedTimestamp : Z;
  pin_mode : Z -> PinMode;
  pin_level : Z -> Level;
  millis_calls : nat
}.

(** What the code sends out: a level written to a pin, a line printed on
    the serial port. *)
Inductive Output : Type :=
| Wrote (pin : Z) (v : Level)
| Printed (line : string).

Definition set_currentDoorState (s : DoorState) (m : Machine) : Machine :=
  mkMachine s (stateChangeTimestamp m) (lastMotionDetectedTimestamp m)
            (pin_mode m) (pin_level m) (millis_calls m).

Definition set_stateChangeTimestamp (t : Z) (m : Machine) : Machine :=
  mkMachine (currentDoorState m) t (lastMotionDetectedTimestamp m)
            (pin_mode m) (pin_level m) (millis_calls m).

Definition set_lastMotionDetectedTimestamp (t : Z) (m : Machine) : Machine :=
  mkMachine (currentDoorState m) (stateChangeTimestamp m) t
            (pin_mode m) (pin_level m) (millis_calls m).

Definition update {V : Type} (f : Z -> V) (k : Z) (v : V) : Z -> V :=
  fun k' => if k' =? k then v else f k'.

(** The machine at power-on: the globals hold their static initialisers,
    every pin is an input at LOW. *)
Definition power_on : Machine :=
  mkMachine CLOSED 0 0 (fun _ => INPUT) (fun _ => LOW) 0.

(** ** The monad: machine state, clock oracle, outputs in order *)

Definition Clock : Type := nat -> Z.

Definition M (A : Type) : Type :=
  Clock -> Machine -> A * Machine * list Output.

Definition ret {A : Type} (a : A) : M A := fun _ m => (a, m, []).

Definition bind {A B : Type} (c : M A) (k : A -> M B) : M B :=
  fun clk m =>
    let '(a, m1, out1) := c clk m in
    let '(b, m2, out2) := k a clk m1 in
    (b, m2, (out1 ++ out2)%list).

Notation "x <- c1 ;; c2" := (bind c1 (fun x => c2))
  (at level 61, c1 at next level, right associativity).
Notation "c1 ;; c2" := (bind c1 (fun _ => c2))
  (at level 61, right associativity).

Definition gets {A : Type} (f : Machine -> A) : M A := fun _ m => (f m, m, []).
Definition modify (f : Machine -> Machine) : M unit := fun _ m => (tt, f m, []).
Definition emit (o : Output) : M unit := fun _ m => (tt, m, [o]).
Definition when (b : bool) (c : M unit) : M unit := if b then c else ret tt.

(** The machine a computation leaves, and what it sent out. *)
Definition exec {A : Type} (c : M A) (clk : Clock) (m : Machine) : Machine :=
  snd (fst (c clk m)).
Definition emitted {A : Type} (c : M A) (clk : Clock) (m : Machine) : list Output :=
  snd (c clk m).

Definition millis : M Z :=
  fun clk m =>
    (clk (millis_calls m),
     mkMachine (currentDoorState m) (stateChangeTimestamp m)
               (lastMotionDetectedTimestamp m) (pin_mode m) (pin_level m)
               (S (millis_calls m)),
     []).

Definition digitalRead (pin : Z) : M Level := gets (fun m => pin_level m pin).

Definition digitalWrite (pin : Z) (v : Level) : M unit :=
  modify (fun m =>
    mkMachine (currentDoorState m) (stateChangeTimestamp m)
              (lastMotionDetectedTimestamp m) (pin_mode m)
              (update (pin_level m) pin v) (millis_calls m)) ;;
  emit (Wrote pin v).

Definition pinMode (pin : Z) (d : PinMode) : M unit :=
  modify (fun m =>
    mkMachine (currentDoorState m) (stateChangeTimestamp m)
              (lastMotionDetectedTimestamp m) (update (pin_mode m) pin d)
              (pin_level m) (millis_calls m)).

(** [Serial.begin] opens the port; nothing of the machine depends on it. *)
Definition Serial_begin (baud : Z) : M unit := ret tt.

Definition Serial_println (s : string) : M unit := emit (Printed s).

(** The levels written to one pin, in order. *)
Fixpoint levels_written (pin : Z) (out : list Output) : list Level :=
  match out with
  | [] => []
  | Wrote p v :: rest =>
      if p =? pin then v :: levels_written pin rest else levels_written pin rest
  | Printed _ :: rest => levels_written pin rest
  end.

(** ** The sensor snapshot of one pass of [loop] *)

Record SensorSnapshot : Set := mkSnapshot {
  obstacleDetected : bool;
  activeRadarSensors : Z
}.

Definition motionDetected (snap : SensorSnapshot) : bool :=
  activeRadarSensors snap >=? MOTION_SENSITIVITY_THRESHOLD.

(** ** [loop], sections 1 (from the motion timestamp on) to 4 *)

(** "If motion is detected, update the timestamp". *)
Definition note_motion (snap : SensorSnapshot) : M unit :=
  when (motionDetected snap)
       (t <- millis ;; modify (set_lastMotionDetectedTimestamp t)).

(** Section 2, safety override logic. *)
Definition safety_override (snap : SensorSnapshot) : M unit :=
  if obstacleDetected snap then
    s <- gets currentDoorState ;;
    when (negb (DoorState_eqb s OPENING) && negb (DoorState_eqb s OPEN))
         (modify (set_currentDoorState OPENING) ;;
          t <- millis ;;
          modify (set_stateChangeTimestamp t) ;;
          Serial_println "! OBSTACLE DETECTED ! Forcing door to OPEN.") ;;
    digitalWrite BUZZER_PIN HIGH
  else
    digitalWrite BUZZER_PIN LOW.

(** Section 3, the [switch] on [currentDoorState]. *)
Definition state_machine (snap : SensorSnapshot) : M unit :=
  s <- gets currentDoorState ;;
  match s with
  | CLOSED =>
      when (motionDetected snap)
           (modify (set_currentDoorState OPENING) ;;
            t <- millis ;;
            modify (set_stateChangeTimestamp t) ;;
            Serial_println "Motion detected. State changed to OPENING.")
  | OPENING =>
      t <- millis ;;
      since <- gets stateChangeTimestamp ;;
      when (ulong_sub t since >=? ulong_of_long DOOR_TRAVEL_TIME_MS)
           (modify (set_currentDoorState OPEN) ;;
            Serial_println "Door has finished opening. State changed to OPEN.")
  | OPEN =>
      t <- millis ;;
      since <- gets lastMotionDetectedTimestamp ;;
      when (ulong_sub t since >=? ulong_of_long DOOR_OPEN_DURATION_MS)
           (when (negb (obstacleDetected snap))
                 (modify (set_currentDoorState CLOSING) ;;
                  t' <- millis ;;
                  modify (set_stateChangeTimestamp t') ;;
                  Serial_println "Open time expired. State changed to CLOSING."))
  | CLOSING =>
      t <- millis ;;
      since <- gets stateChangeTimestamp ;;
      when (ulong_sub t since >=? ulong_of_long DOOR_TRAVEL_TIME_MS)
           (modify (set_currentDoorState CLOSED) ;;
            Serial_println "Door has finished closing. State changed to CLOSED.")
  end.

(** Section 4, the relays follow the current state. *)
Definition set_outputs : M unit :=
  s <- gets currentDoorState ;;
  (if DoorState_eqb s OPENING || DoorState_eqb s OPEN
   then digitalWrite DOOR_MOTOR_RELAY_PIN HIGH
   else digitalWrite DOOR_MOTOR_RELAY_PIN LOW) ;;
  s' <- gets currentDoorState ;;
  if DoorState_eqb s' OPEN
  then digitalWrite STATUS_LIGHT_RELAY_PIN HIGH
  else digitalWrite STATUS_LIGHT_RELAY_PIN LOW.

(** Everything [loop] does once the sensors are read. *)
Definition control (snap : SensorSnapshot) : M unit :=
  note_motion snap ;;
  safety_override snap ;;
  state_machine snap ;;
  set_outputs.

(** ** [setup] and [loop]; the analog pin numbers come from the board *)

Section Sketch.

Variables A0 A1 A3 A4 A5 : Z.

Definition RADAR_SENSOR_PINS : list Z := [A0; A1; A5; A3; A4].

Definition NUM_RADAR_SENSORS : Z := Z.of_nat (List.length RADAR_SENSOR_PINS).

(** [for (i = 0; i < NUM_RADAR_SENSORS; i++) pinMode(RADAR_SENSOR_PINS[i], INPUT)] *)
Fixpoint init_radar_pins (pins : list Z) : M unit :=
  match pins with
  | [] => ret tt
  | p :: rest => pinMode p INPUT ;; init_radar_pins rest
  end.

(** The counting loop over the radar pins; [active] is the running value
    of [activeRadarSensors]. *)
Fixpoint count_active (pins : list Z) (active : Z) : M Z :=
  match pins with
  | [] => ret active
  | p :: rest =>
      v <- digitalRead p ;;
      count_active rest (if Level_eqb v HIGH then active + 1 else active)
  end.

Definition setup : M unit :=
  Serial_begin 9600 ;;
  Serial_println "Initializing Automated Ventilation Door System v2.0..." ;;
  init_radar_pins RADAR_SENSOR_PINS ;;
  pinMode OBSTACLE_IR_PIN_1 INPUT ;;
  pinMode OBSTACLE_IR_PIN_2 INPUT ;;
  pinMode DOOR_MOTOR_RELAY_PIN OUTPUT ;;
  pinMode STATUS_LIGHT_RELAY_PIN OUTPUT ;;
  pinMode BUZZER_PIN OUTPUT ;;
  digitalWrite DOOR_MOTOR_RELAY_PIN LOW ;;
  digitalWrite STATUS_LIGHT_RELAY_PIN LOW ;;
  digitalWrite BUZZER_PIN LOW ;;
  Serial_println "System Initialized. Door is CLOSED.".

(** Section 1 of [loop]: the obstacle flag ([||] reads the second sensor
    only when the first one is not LOW) and the radar count. *)
Definition read_sensors : M SensorSnapshot :=
  ir1 <- digitalRead OBSTACLE_IR_PIN_1 ;;
  obstacle <- (if Level_eqb ir1 LOW then ret true
               else ir2 <- digitalRead OBSTACLE_IR_PIN_2 ;;
                    ret (Level_eqb ir2 LOW)) ;;
  active <- count_active RADAR_SENSOR_PINS 0 ;;
  ret (mkSnapshot obstacle active).

Definition loop : M unit :=
  snap <- read_sensors ;;
  control snap.

End Sketch.

(** ** One polling cycle at a single instant, and runs of cycles *)

(** The clock that reads [now] at every call. *)
Definition steady (now : Z) : Clock := fun _ => now.

(** One pass of the control logic during which the clock reads [now]. *)
Definition evaluate (snap : SensorSnapshot) (now : Z) (m : Machine) : Machine :=
  exec (control snap) (steady now) m.

(** Consecutive cycles, each with its snapshot and its instant. *)
Fixpoint run (cycles : list (SensorSnapshot * Z)) (m : Machine) : Machine :=
  match cycles with
  | [] => m
  | (snap, now) :: rest => run rest (evaluate snap now m)
  end.

(** What the three actuators are commanded to: motor relay, status light
    relay, buzzer. *)
Definition actuators (m : Machine) : Level * Level * Level :=
  (pin_level m DOOR_MOTOR_RELAY_PIN,
   pin_level m STATUS_LIGHT_RELAY_PIN,
   pin_level m BUZZER_PIN).

(** The controller's own variables. *)
Definition controller (m : Machine) : DoorState * Z * Z :=
  (currentDoorState m, stateChangeTimestamp m, lastMotionDetectedTimestamp m).

(** ** Notions used in the statements *)

(** The arrows of the state diagram, self-loops included. *)
Definition may_follow (s s' : DoorState) : bool :=
  match s, s' with
  | CLOSED, (CLOSED | OPENING) => true
  | OPENING, (OPENING | OPEN) => true
  | OPEN, (OPEN | CLOSING) => true
  | CLOSING, (CLOSING | CLOSED | OPENING) => true
  | _, _ => false
  end.

(** The dwell comparison of a cycle, on the timestamp the switch reads: a
    cycle that detects motion has just restarted the dwell clock at [now]. *)
Definition dwell_expired (snap : SensorSnapshot) (now last : Z) : Prop :=
  now - (if motionDetected snap then now else last) >= DOOR_OPEN_DURATION_MS.

(** The door of scenarios B and C, reached from power-on: motion at 0,
    OPEN at 15000, last motion at 20000. *)
Definition scenario_B_door : Machine :=
  run [(mkSnapshot false 1, 0); (mkSnapshot false 0, 15000);
       (mkSnapshot false 1, 20000)] power_on.

(** [calls] passes in a row with the same snapshot and the same [now]. *)
Definition repeated (calls : nat) (snap : SensorSnapshot) (now : Z)
    (m : Machine) : Machine :=
  Nat.iter calls (evaluate snap now) m.

(** The door forced OPENING at time 0 straight after power-on. *)
Definition forced_at_zero : Machine := evaluate (mkSnapshot true 0) 0 power_on.

(** The lines printed on the serial port, in order. *)
Fixpoint lines_printed (out : list Output) : list string :=
  match out with
  | [] => []
  | Printed line :: rest => line :: lines_printed rest
  | Wrote _ _ :: rest => lines_printed rest
  end.

(** The pins of a list that read HIGH. *)
Definition pins_high (m : Machine) (pins : list Z) : list Z :=
  filter (fun p => Level_eqb (pin_level m p) HIGH) pins.

(** The three pins the sketch drives. *)
Definition is_actuator_pin (pin : Z) : bool :=
  (pin =? DOOR_MOTOR_RELAY_PIN) || (pin =? STATUS_LIGHT_RELAY_PIN) ||
  (pin =? BUZZER_PIN).

(** The instants of consecutive cycles do not go back, starting at [t0]. *)
Fixpoint in_order (t0 : Z) (cycles : list (SensorSnapshot * Z)) : Prop :=
  match cycles with
  | [] => True
  | (_, now) :: rest => t0 <= now /\ in_order now rest
  end.

(** The instant of the last cycle, [t0] when there is none. *)
Fixpoint last_instant (t0 : Z) (cycles : list (SensorSnapshot * Z)) : Z :=
  match cycles with
  | [] => t0
  | (_, now) :: rest => last_instant now rest
  end.

(** The two relays agree with the door state. *)
Definition relays_match_state (m : Machine) : Prop :=
  pin_level m DOOR_MOTOR_RELAY_PIN =
    (if DoorState_eqb (currentDoorState m) OPENING ||
        DoorState_eqb (currentDoorState m) OPEN then HIGH else LOW) /\
  pin_level m STATUS_LIGHT_RELAY_PIN =
    (if DoorState_eqb (currentDoorState m) OPEN then HIGH else LOW).

(** Between two passes the outside world may change the level of any pin
    the sketch does not drive; it changes nothing else. *)
Definition sensors_moved (m m' : Machine) : Prop :=
  controller m' = controller m /\
  pin_mode m' = pin_mode m /\
  forall pin, is_actuator_pin pin = true -> pin_level m' pin = pin_level m pin.

Section Running.

Variables A0 A1 A3 A4 A5 : Z.

(** The machines the board goes through between passes: [setup] once from
    power-on, then passes of [loop] with any clock readings, the sensors
    moving in between. *)
Inductive reachable : Machine -> Prop :=
| reach_setup (clk : Clock) :
    reachable (exec (setup A0 A1 A3 A4 A5) clk power_on)
| reach_sensors (m m' : Machine) :
    reachable m -> sensors_moved m m' -> reachable m'
| reach_loop (clk : Clock) (m : Machine) :
    reachable m -> reachable (exec (loop A0 A1 A3 A4 A5) clk m).

End Running.

(** ** Arithmetic of the two timers *)

Lemma ulong_sub_self (t : Z) : ulong_sub t t = 0.
Proof. unfold ulong_sub. rewrite Z.sub_diag. reflexivity. Qed.

Lemma ulong_sub_exact (a b : Z) :
  0 <= a - b < ulong_modulus -> ulong_sub a b = a - b.
Proof. intros H. unfold ulong_sub. apply Z.mod_small. exact H. Qed.

Lemma travel_limit : ulong_of_long DOOR_TRAVEL_TIME_MS = 15000.
Proof. reflexivity. Qed.

Lemma dwell_limit : ulong_of_long DOOR_OPEN_DURATION_MS = 10000.
Proof. reflexivity. Qed.

(** A timer started at this very reading has not expired. *)
Lemma travel_timer_fresh (t : Z) :
  (ulong_sub t t >=? ulong_of_long DOOR_TRAVEL_TIME_MS) = false.
Proof. rewrite ulong_sub_self. reflexivity. Qed.

Lemma dwell_timer_fresh (t : Z) :
  (ulong_sub t t >=? ulong_of_long DOOR_OPEN_DURATION_MS) = false.
Proof. rewrite ulong_sub_self. reflexivity. Qed.

(** With both readings in range and in order, the comparison the sketch
    makes is the comparison of the elapsed time. *)
Lemma timer_expired_iff (now since limit : Z) :
  0 <= since <= now -> now < ulong_modulus ->
  0 <= limit < ulong_modulus ->
  (ulong_sub now since >=? ulong_of_long limit) = true <-> now - since >= limit.
Proof.
  intros Hs Hn Hl. rewrite ulong_sub_exact by lia.
  unfold ulong_of_long. rewrite Z.mod_small by assumption.
  rewrite Z.geb_le. lia.
Qed.

Lemma timer_running_iff (now since limit : Z) :
  0 <= since <= now -> now < ulong_modulus ->
  0 <= limit < ulong_modulus ->
  (ulong_sub now since >=? ulong_of_long limit) = false <-> now - since < limit.
Proof.
  intros Hs Hn Hl.
  pose proof (timer_expired_iff now since limit Hs Hn Hl) as H.
  destruct (ulong_sub now since >=? ulong_of_long limit); split; intros;
    try reflexivity; try discriminate.
  - assert (now - since >= limit) by (apply H; reflexivity). lia.
  - destruct (Z_lt_ge_dec (now - since) limit) as [Hlt | Hge]; [assumption|].
    apply H in Hge. discriminate.
Qed.

(** ** Symbolic execution of one pass *)

(** Unfolds the monadic code of a pass down to the tests on the sensors
    and on the timers, which stay folded. *)
Ltac unfold_pass :=
  cbv beta iota zeta delta
    [evaluate exec control note_motion safety_override state_machine
     set_outputs when bind gets modify emit millis digitalWrite
     Serial_println ret steady emitted set_currentDoorState
     set_stateChangeTimestamp set_lastMotionDetectedTimestamp
     currentDoorState stateChangeTimestamp lastMotionDetectedTimestamp
     pin_level pin_mode millis_calls obstacleDetected fst snd app
     DoorState_eqb negb andb orb actuators controller].

(** Splits on the timer tests left in the goal, using what is known about
    them. *)
Ltac split_timers :=
  repeat match goal with
    | H : ?b = _ |- context [if ?b then _ else _] => rewrite H
    | |- context [if (ulong_sub ?t ?t >=? ulong_of_long DOOR_TRAVEL_TIME_MS) then _ else _] =>
        rewrite (travel_timer_fresh t)
    | |- context [if (ulong_sub ?t ?t >=? ulong_of_long DOOR_OPEN_DURATION_MS) then _ else _] =>
        rewrite (dwell_timer_fresh t)
    | |- context [if (ulong_sub ?a ?b >=? ?l) then _ else _] =>
        destruct (ulong_sub a b >=? l) eqn:?
    end; unfold_pass.

(** Opens the machine and the snapshot and runs the pass. *)
Ltac run_pass m snap :=
  destruct m as [? ? ? ? ? ?];
  destruct snap as [? ?];
  cbn [currentDoorState stateChangeTimestamp lastMotionDetectedTimestamp
       obstacleDetected] in *;
  subst;
  unfold_pass;
  try match goal with
    | |- context [motionDetected ?sn] => destruct (motionDetected sn) eqn:?
    end;
  unfold_pass.

(** ** Reading the sensors *)

(** The counting loop leaves the machine alone, sends nothing out, and
    counts at most one per radar pin, so the [int] counter cannot overflow. *)
Lemma count_active_reads_only (pins : list Z) :
  forall (active : Z) (clk : Clock) (m : Machine),
    exec (count_active pins active) clk m = m /\
    emitted (count_active pins active) clk m = [] /\
    active <= fst (fst (count_active pins active clk m))
           <= active + Z.of_nat (List.length pins).
Proof.
  unfold exec, emitted.
  induction pins as [| p rest IH]; intros active clk m.
  - cbn. repeat split; lia.
  - cbn [count_active]. unfold bind, digitalRead, gets.
    destruct (IH (if Level_eqb (pin_level m p) HIGH then active + 1 else active)
                 clk m) as (Hm & Hout & Hcount).
    destruct (count_active rest
                (if Level_eqb (pin_level m p) HIGH then active + 1 else active)
                clk m) as [[n m'] out].
    cbn [fst snd] in *. subst. cbn [app List.length].
    repeat split; destruct (Level_eqb (pin_level m p) HIGH); lia.
Qed.

(** Reading the sensors changes nothing and sends nothing out. *)
Lemma read_sensors_reads_only (A0 A1 A3 A4 A5 : Z) (clk : Clock) (m : Machine) :
  exec (read_sensors A0 A1 A3 A4 A5) clk m = m /\
  emitted (read_sensors A0 A1 A3 A4 A5) clk m = [].
Proof.
  unfold exec, emitted, read_sensors, bind, digitalRead, gets, ret.
  destruct (count_active_reads_only (RADAR_SENSOR_PINS A0 A1 A3 A4 A5) 0 clk m)
    as (Hm & Hout & _).
  unfold exec, emitted in Hm, Hout.
  destruct (Level_eqb (pin_level m OBSTACLE_IR_PIN_1) LOW);
    destruct (count_active (RADAR_SENSOR_PINS A0 A1 A3 A4 A5) 0 clk m)
      as [[n m'] out];
    cbn [fst snd] in *; subst; split; reflexivity.
Qed.

(** A pass of [loop] is the control logic applied to the snapshot that the
    sensor readings of this pass give. *)
Lemma loop_is_control_of_snapshot (A0 A1 A3 A4 A5 : Z) (clk : Clock) (m : Machine) :
  let snap := fst (fst (read_sensors A0 A1 A3 A4 A5 clk m)) in
  exec (loop A0 A1 A3 A4 A5) clk m = exec (control snap) clk m /\
  emitted (loop A0 A1 A3 A4 A5) clk m = emitted (control snap) clk m.
Proof.
  destruct (read_sensors_reads_only A0 A1 A3 A4 A5 clk m) as [Hm Hout].
  unfold exec, emitted in *. unfold loop, bind.
  destruct (read_sensors A0 A1 A3 A4 A5 clk m) as [[snap m'] out].
  cbn [fst snd] in *. subst m' out.
  destruct (control snap clk m) as [[u m2] out2]. split; reflexivity.
Qed.

(** Timestamps are past clock readings: a cycle at [now] keeps both at or
    before [now]. *)
Lemma timestamps_stay_in_past (snap : SensorSnapshot) (now : Z) (m : Machine) :
  0 <= stateChangeTimestamp m <= now ->
  0 <= lastMotionDetectedTimestamp m <= now ->
  0 <= stateChangeTimestamp (evaluate snap now m) <= now /\
  0 <= lastMotionDetectedTimestamp (evaluate snap now m) <= now.
Proof.
  intros Hts Hlast.
  run_pass m snap;
    match goal with s : DoorState |- _ => destruct s end;
    match goal with b : bool |- _ => destruct b end;
    unfold_pass; split_timers; split; lia.
Qed.

(** ** The safety override *)

(** C1. In a cycle whose snapshot reports an obstacle while the door is
    CLOSED or CLOSING, the override has already put the door in OPENING with
    [stateChangeTimestamp = now] when the switch is entered, and the cycle
    ends in OPENING with that timestamp, whatever the motion sensors say and
    whatever the timers held. *)
Theorem obstacle_forces_opening (snap : SensorSnapshot) (now : Z) (m : Machine) :
  obstacleDetected snap = true ->
  currentDoorState m = CLOSED \/ currentDoorState m = CLOSING ->
  let entering := exec (note_motion snap ;; safety_override snap) (steady now) m in
  let m' := evaluate snap now m in
  currentDoorState entering = OPENING /\ stateChangeTimestamp entering = now /\
  currentDoorState m' = OPENING /\ stateChangeTimestamp m' = now.
Proof.
  intros Hobs Hstate.
  run_pass m snap; destruct Hstate; subst; unfold_pass; split_timers;
    repeat split; reflexivity.
Qed.

Lemma obstacle_forces_opening_witness :
  currentDoorState (evaluate (mkSnapshot true 0) 42000
                      (mkMachine CLOSING 30000 20000 (fun _ => INPUT) (fun _ => LOW) 0))
  = OPENING.
Proof.
  exact (proj1 (proj2 (proj2
    (obstacle_forces_opening (mkSnapshot true 0) 42000
       (mkMachine CLOSING 30000 20000 (fun _ => INPUT) (fun _ => LOW) 0)
       eq_refl (or_intror eq_refl))))).
Defined.

(** C9. Whatever the door was doing and whatever [millis()] returns, a
    pass whose snapshot reports an obstacle ends in OPENING or OPEN with the
    motor relay HIGH, and HIGH is the only level the pass writes to the motor
    relay: the motor is not commanded off at any point of the pass. *)
Theorem obstacle_keeps_motor_on (snap : SensorSnapshot) (clk : Clock) (m : Machine) :
  obstacleDetected snap = true ->
  let m' := exec (control snap) clk m in
  (currentDoorState m' = OPENING \/ currentDoorState m' = OPEN) /\
  pin_level m' DOOR_MOTOR_RELAY_PIN = HIGH /\
  levels_written DOOR_MOTOR_RELAY_PIN (emitted (control snap) clk m) = [HIGH].
Proof.
  intros Hobs.
  run_pass m snap;
    match goal with s : DoorState |- _ => destruct s end;
    unfold_pass; split_timers; repeat split; auto.
Qed.

Lemma obstacle_keeps_motor_on_witness :
  pin_level (exec (control (mkSnapshot true 3)) (fun n => 500 + Z.of_nat n)
               (mkMachine CLOSING 100 0 (fun _ => INPUT) (fun _ => LOW) 0))
            DOOR_MOTOR_RELAY_PIN = HIGH.
Proof.
  exact (proj1 (proj2
    (obstacle_keeps_motor_on (mkSnapshot true 3) (fun n => 500 + Z.of_nat n)
       (mkMachine CLOSING 100 0 (fun _ => INPUT) (fun _ => LOW) 0) eq_refl))).
Defined.

(** ** Outputs *)

(** Every pass writes each of the three actuator pins exactly once, with
    the level the pin has when the pass ends. *)
Lemma each_actuator_written_once (snap : SensorSnapshot) (clk : Clock) (m : Machine) :
  let m' := exec (control snap) clk m in
  let out := emitted (control snap) clk m in
  levels_written DOOR_MOTOR_RELAY_PIN out = [pin_level m' DOOR_MOTOR_RELAY_PIN] /\
  levels_written STATUS_LIGHT_RELAY_PIN out = [pin_level m' STATUS_LIGHT_RELAY_PIN] /\
  levels_written BUZZER_PIN out = [pin_level m' BUZZER_PIN].
Proof.
  run_pass m snap;
    match goal with s : DoorState |- _ => destruct s end;
    match goal with b : bool |- _ => destruct b end;
    unfold_pass; split_timers; repeat split; reflexivity.
Qed.

(** C5. At the end of a pass, whatever [millis()] returned during it: the
    motor relay is HIGH exactly when the door is OPENING or OPEN, the
    status light relay is HIGH (green) exactly when the door is OPEN, and the
    buzzer is HIGH exactly when the snapshot reports an obstacle. *)
Theorem outputs_follow_state (snap : SensorSnapshot) (clk : Clock) (m : Machine) :
  let m' := exec (control snap) clk m in
  (pin_level m' DOOR_MOTOR_RELAY_PIN = HIGH <->
     currentDoorState m' = OPENING \/ currentDoorState m' = OPEN) /\
  (pin_level m' STATUS_LIGHT_RELAY_PIN = HIGH <-> currentDoorState m' = OPEN) /\
  (pin_level m' BUZZER_PIN = HIGH <-> obstacleDetected snap = true).
Proof.
  run_pass m snap;
    match goal with s : DoorState |- _ => destruct s end;
    match goal with b : bool |- _ => destruct b end;
    unfold_pass; split_timers; cbv [update Z.eqb Pos.eqb
      DOOR_MOTOR_RELAY_PIN STATUS_LIGHT_RELAY_PIN BUZZER_PIN];
    repeat split; intros; auto; try discriminate;
    repeat match goal with H : _ \/ _ |- _ => destruct H end; discriminate.
Qed.

(** ** The door while OPENING *)

(** One pass in OPENING: the timestamp stays, and only the travel timer
    decides between OPENING and OPEN. *)
Lemma opening_pass (snap : SensorSnapshot) (now : Z) (m : Machine) :
  currentDoorState m = OPENING ->
  stateChangeTimestamp (evaluate snap now m) = stateChangeTimestamp m /\
  currentDoorState (evaluate snap now m) =
    (if ulong_sub now (stateChangeTimestamp m) >=? ulong_of_long DOOR_TRAVEL_TIME_MS
     then OPEN else OPENING).
Proof.
  intros Hstate.
  run_pass m snap;
    match goal with b : bool |- _ => destruct b end;
    unfold_pass; split_timers; split; reflexivity.
Qed.

(** C4. A cycle that starts in OPENING with [stateChangeTimestamp = T] and
    sees no obstacle ends in OPEN exactly when [now - T >=
    DOOR_TRAVEL_TIME_MS]; when [now - T < DOOR_TRAVEL_TIME_MS] it ends in
    OPENING.  [T] and [now] are clock readings, [T] not after [now]. *)
Theorem opening_becomes_open_iff_travel_elapsed
    (snap : SensorSnapshot) (now T : Z) (m : Machine) :
  currentDoorState m = OPENING ->
  stateChangeTimestamp m = T ->
  obstacleDetected snap = false ->
  0 <= T <= now -> now < ulong_modulus ->
  (currentDoorState (evaluate snap now m) = OPEN <-> now - T >= DOOR_TRAVEL_TIME_MS) /\
  (now - T < DOOR_TRAVEL_TIME_MS -> currentDoorState (evaluate snap now m) = OPENING).
Proof.
  intros Hstate HT Hobs Hrange Hnow.
  destruct (opening_pass snap now m Hstate) as [_ Hnext].
  rewrite HT in Hnext. rewrite Hnext.
  assert (Hlimit : 0 <= DOOR_TRAVEL_TIME_MS < ulong_modulus)
    by (unfold DOOR_TRAVEL_TIME_MS, ulong_modulus; lia).
  pose proof (timer_expired_iff now T _ Hrange Hnow Hlimit) as Hexp.
  pose proof (timer_running_iff now T _ Hrange Hnow Hlimit) as Hrun.
  destruct (ulong_sub now T >=? ulong_of_long DOOR_TRAVEL_TIME_MS).
  - split; [split; intros; [apply Hexp|]; reflexivity|].
    intros Hlt. assert (now - T >= DOOR_TRAVEL_TIME_MS) by (apply Hexp; reflexivity). lia.
  - split; [|reflexivity].
    split; [discriminate|]. intros Hge. apply Hexp in Hge. discriminate.
Qed.

Lemma opening_becomes_open_iff_travel_elapsed_witness :
  currentDoorState (evaluate (mkSnapshot false 1) 15000
                      (mkMachine OPENING 0 0 (fun _ => INPUT) (fun _ => LOW) 0))
  = OPEN.
Proof.
  apply (proj1 (opening_becomes_open_iff_travel_elapsed
           (mkSnapshot false 1) 15000 0
           (mkMachine OPENING 0 0 (fun _ => INPUT) (fun _ => LOW) 0)
           eq_refl eq_refl eq_refl
           ltac:(lia) ltac:(reflexivity))).
  unfold DOOR_TRAVEL_TIME_MS. lia.
Defined.

(** Cycles that leave the door in OPENING keep the timestamp. *)
Lemma opening_run (T : Z) (cycles : list (SensorSnapshot * Z)) :
  Forall (fun c => T <= snd c /\ snd c - T < DOOR_TRAVEL_TIME_MS) cycles ->
  forall m : Machine,
    currentDoorState m = OPENING -> stateChangeTimestamp m = T ->
    currentDoorState (run cycles m) = OPENING /\
    stateChangeTimestamp (run cycles m) = T.
Proof.
  induction 1 as [| [snap now] rest [Hle Hlt] _ IH]; intros m Hstate HT.
  - split; assumption.
  - cbn [run]. cbn [snd] in Hle, Hlt.
    destruct (opening_pass snap now m Hstate) as [Hts Hnext].
    rewrite HT in Hts, Hnext.
    assert (Hrunning : (ulong_sub now T >=? ulong_of_long DOOR_TRAVEL_TIME_MS) = false).
    { rewrite ulong_sub_exact
        by (unfold DOOR_TRAVEL_TIME_MS, ulong_modulus in *; lia).
      rewrite travel_limit. unfold DOOR_TRAVEL_TIME_MS in Hlt.
      destruct (now - T >=? 15000) eqn:E; [|reflexivity].
      rewrite Z.geb_le in E. lia. }
    rewrite Hrunning in Hnext. apply IH; assumption.
Qed.

(** C10. While the door is OPENING no sensor input touches
    [stateChangeTimestamp]: through any cycles whose instants lie less than
    the travel time after [T], with arbitrary obstacle and motion readings,
    the door stays OPENING with the timestamp [T]; and the next cycle, again
    with arbitrary readings, keeps the timestamp and ends in OPEN exactly
    when [now - T >= DOOR_TRAVEL_TIME_MS], in OPENING exactly when not. *)
Theorem opening_time_independent_of_sensors
    (m : Machine) (T : Z) (cycles : list (SensorSnapshot * Z))
    (snap : SensorSnapshot) (now : Z) :
  currentDoorState m = OPENING ->
  stateChangeTimestamp m = T ->
  Forall (fun c => T <= snd c /\ snd c - T < DOOR_TRAVEL_TIME_MS) cycles ->
  0 <= T <= now -> now < ulong_modulus ->
  let m' := run cycles m in
  currentDoorState m' = OPENING /\ stateChangeTimestamp m' = T /\
  stateChangeTimestamp (evaluate snap now m') = T /\
  (currentDoorState (evaluate snap now m') = OPEN <-> now - T >= DOOR_TRAVEL_TIME_MS) /\
  (currentDoorState (evaluate snap now m') = OPENING <-> now - T < DOOR_TRAVEL_TIME_MS).
Proof.
  intros Hstate HT Hcycles Hrange Hnow m'.
  destruct (opening_run T cycles Hcycles m Hstate HT) as [Hstate' HT'].
  fold m' in Hstate', HT'.
  destruct (opening_pass snap now m' Hstate') as [Hts Hnext].
  rewrite HT' in Hts, Hnext. rewrite Hnext.
  assert (Hlimit : 0 <= DOOR_TRAVEL_TIME_MS < ulong_modulus)
    by (unfold DOOR_TRAVEL_TIME_MS, ulong_modulus; lia).
  pose proof (timer_expired_iff now T _ Hrange Hnow Hlimit) as Hexp.
  pose proof (timer_running_iff now T _ Hrange Hnow Hlimit) as Hrun.
  split; [assumption|]. split; [assumption|]. split; [assumption|].
  destruct (ulong_sub now T >=? ulong_of_long DOOR_TRAVEL_TIME_MS).
  - assert (Hge : now - T >= DOOR_TRAVEL_TIME_MS) by (apply Hexp; reflexivity).
    split; split; intros; try reflexivity; try assumption;
      try discriminate; lia.
  - assert (Hlt : now - T < DOOR_TRAVEL_TIME_MS) by (apply Hrun; reflexivity).
    split; split; intros; try reflexivity; try assumption;
      try discriminate; lia.
Qed.

Lemma opening_time_independent_of_sensors_witness :
  currentDoorState
    (run [(mkSnapshot true 5, 2000); (mkSnapshot false 0, 14999)]
         (mkMachine OPENING 1000 0 (fun _ => INPUT) (fun _ => LOW) 0))
  = OPENING.
Proof.
  refine (proj1 (opening_time_independent_of_sensors
           (mkMachine OPENING 1000 0 (fun _ => INPUT) (fun _ => LOW) 0)
           1000 [(mkSnapshot true 5, 2000); (mkSnapshot false 0, 14999)]
           (mkSnapshot true 0) 16000 eq_refl eq_refl _ _ _)).
  - repeat constructor; cbn [snd]; unfold DOOR_TRAVEL_TIME_MS; lia.
  - lia.
  - reflexivity.
Defined.

(** ** The door while OPEN *)

Lemma dwell_expired_no_motion (snap : SensorSnapshot) (now last : Z) :
  dwell_expired snap now last ->
  motionDetected snap = false /\ now - last >= DOOR_OPEN_DURATION_MS.
Proof.
  unfold dwell_expired, DOOR_OPEN_DURATION_MS.
  destruct (motionDetected snap); intros H; [lia | split; [reflexivity | exact H]].
Qed.

(** One pass in OPEN with an obstacle: the door stays OPEN, the travel
    timestamp stays, and the motion timestamp is what the motion step alone
    leaves. *)
Lemma open_pass_obstacle (snap : SensorSnapshot) (now : Z) (m : Machine) :
  currentDoorState m = OPEN ->
  obstacleDetected snap = true ->
  currentDoorState (evaluate snap now m) = OPEN /\
  stateChangeTimestamp (evaluate snap now m) = stateChangeTimestamp m /\
  lastMotionDetectedTimestamp (evaluate snap now m) =
    (if motionDetected snap then now else lastMotionDetectedTimestamp m).
Proof.
  intros Hstate Hobs.
  run_pass m snap; split_timers;
    repeat match goal with H : motionDetected _ = _ |- _ => rewrite H end;
    repeat split; reflexivity.
Qed.

(** One pass in OPEN without obstacle and without motion. *)
Lemma open_pass_clear (snap : SensorSnapshot) (now : Z) (m : Machine) :
  currentDoorState m = OPEN ->
  obstacleDetected snap = false ->
  motionDetected snap = false ->
  lastMotionDetectedTimestamp (evaluate snap now m) = lastMotionDetectedTimestamp m /\
  (currentDoorState (evaluate snap now m), stateChangeTimestamp (evaluate snap now m)) =
    (if ulong_sub now (lastMotionDetectedTimestamp m) >=? ulong_of_long DOOR_OPEN_DURATION_MS
     then (CLOSING, now) else (OPEN, stateChangeTimestamp m)).
Proof.
  intros Hstate Hobs Hmotion.
  run_pass m snap; try discriminate; split_timers; split; reflexivity.
Qed.

(** Cycles with an obstacle and an expired dwell clock leave an OPEN door
    as it is. *)
Lemma open_run_blocked (L : Z) (blocked : list (SensorSnapshot * Z)) :
  Forall (fun c => obstacleDetected (fst c) = true /\
                   dwell_expired (fst c) (snd c) L) blocked ->
  forall m : Machine,
    currentDoorState m = OPEN -> lastMotionDetectedTimestamp m = L ->
    currentDoorState (run blocked m) = OPEN /\
    lastMotionDetectedTimestamp (run blocked m) = L /\
    stateChangeTimestamp (run blocked m) = stateChangeTimestamp m.
Proof.
  induction 1 as [| [snap now] rest [Hobs Hdwell] _ IH]; intros m Hstate HL.
  - repeat split; assumption.
  - cbn [run]. cbn [fst snd] in Hobs, Hdwell.
    destruct (dwell_expired_no_motion _ _ _ Hdwell) as [Hmotion _].
    destruct (open_pass_obstacle snap now m Hstate Hobs) as (Hs & Hts & Hlast).
    rewrite Hmotion in Hlast. rewrite <- Hts.
    apply IH; [assumption | congruence].
Qed.

(** C2. With the door OPEN and [lastMotionDetectedTimestamp = L]: through
    any number of cycles in which the dwell comparison holds but the
    snapshot reports an obstacle, the door stays OPEN and neither
    [lastMotionDetectedTimestamp] nor [stateChangeTimestamp] changes; the
    next cycle without obstacle in which the dwell comparison holds ends in
    CLOSING with [stateChangeTimestamp = now], the dwell clock still at [L]. *)
Theorem closing_withheld_while_obstacle
    (m : Machine) (L : Z) (blocked : list (SensorSnapshot * Z))
    (snap : SensorSnapshot) (now : Z) :
  currentDoorState m = OPEN ->
  lastMotionDetectedTimestamp m = L ->
  Forall (fun c => obstacleDetected (fst c) = true /\
                   dwell_expired (fst c) (snd c) L) blocked ->
  obstacleDetected snap = false ->
  dwell_expired snap now L ->
  0 <= L <= now -> now < ulong_modulus ->
  let m' := run blocked m in
  currentDoorState m' = OPEN /\
  lastMotionDetectedTimestamp m' = L /\
  stateChangeTimestamp m' = stateChangeTimestamp m /\
  currentDoorState (evaluate snap now m') = CLOSING /\
  stateChangeTimestamp (evaluate snap now m') = now /\
  lastMotionDetectedTimestamp (evaluate snap now m') = L.
Proof.
  intros Hstate HL Hblocked Hobs Hdwell Hrange Hnow m'.
  destruct (open_run_blocked L blocked Hblocked m Hstate HL) as (Hs & Hlast & Hts).
  fold m' in Hs, Hlast, Hts.
  destruct (dwell_expired_no_motion _ _ _ Hdwell) as [Hmotion Hge].
  destruct (open_pass_clear snap now m' Hs Hobs Hmotion) as [Hlast' Hnext].
  rewrite Hlast in Hlast', Hnext.
  assert (Hexp : (ulong_sub now L >=? ulong_of_long DOOR_OPEN_DURATION_MS) = true).
  { apply timer_expired_iff; try assumption.
    unfold DOOR_OPEN_DURATION_MS, ulong_modulus; lia. }
  rewrite Hexp in Hnext. injection Hnext as Hs' Hts'.
  repeat split; assumption.
Qed.

Lemma closing_withheld_while_obstacle_witness :
  currentDoorState
    (evaluate (mkSnapshot false 0) 30050
       (run [(mkSnapshot true 0, 30000); (mkSnapshot true 0, 30025)]
            (mkMachine OPEN 0 20000 (fun _ => INPUT) (fun _ => LOW) 0)))
  = CLOSING.
Proof.
  refine (proj1 (proj2 (proj2 (proj2 (closing_withheld_while_obstacle
           (mkMachine OPEN 0 20000 (fun _ => INPUT) (fun _ => LOW) 0)
           20000 [(mkSnapshot true 0, 30000); (mkSnapshot true 0, 30025)]
           (mkSnapshot false 0) 30050 eq_refl eq_refl _ eq_refl _ _ _))))).
  - repeat constructor; cbv; discriminate.
  - cbv; discriminate.
  - lia.
  - reflexivity.
Defined.

(** ** Scenario C: an obstacle under an OPEN door *)

(** C3, as stated, fails: at [now = 30000] with an obstacle the door of
    scenario B is not forced to OPENING, it is still OPEN. *)
Lemma scenario_C_not_forced_to_opening :
  currentDoorState scenario_B_door = OPEN /\
  lastMotionDetectedTimestamp scenario_B_door = 20000 /\
  obstacleDetected (mkSnapshot true 0) = true /\
  currentDoorState (evaluate (mkSnapshot true 0) 30000 scenario_B_door) = OPEN /\
  currentDoorState (evaluate (mkSnapshot true 0) 30000 scenario_B_door) <> OPENING.
Proof. repeat split; try reflexivity. vm_compute. discriminate. Qed.

(** C3, amended. With the door OPEN and [lastMotionDetectedTimestamp =
    20000], a cycle at [now = 30000] with an obstacle leaves the door OPEN:
    the override does not fire in OPEN ([stateChangeTimestamp] is untouched)
    and the move to CLOSING is withheld; the buzzer is HIGH and the motor
    relay is still HIGH at the end of the cycle. *)
Theorem scenario_C_stays_open (snap : SensorSnapshot) (m : Machine) :
  currentDoorState m = OPEN ->
  lastMotionDetectedTimestamp m = 20000 ->
  obstacleDetected snap = true ->
  let m' := evaluate snap 30000 m in
  currentDoorState m' = OPEN /\
  stateChangeTimestamp m' = stateChangeTimestamp m /\
  pin_level m' BUZZER_PIN = HIGH /\
  pin_level m' DOOR_MOTOR_RELAY_PIN = HIGH.
Proof.
  intros Hstate Hlast Hobs.
  run_pass m snap; split_timers; repeat split; reflexivity.
Qed.

Lemma scenario_C_stays_open_witness :
  currentDoorState (evaluate (mkSnapshot true 0) 30000 scenario_B_door) = OPEN.
Proof.
  exact (proj1 (scenario_C_stays_open (mkSnapshot true 0) scenario_B_door
                  eq_refl eq_refl eq_refl)).
Defined.

(** ** Repeated calls at one instant *)

(** C6, as stated, fails: with no obstacle, no motion and [now = 15000]
    throughout, the door forced OPENING at 0 is OPEN after the first call and
    CLOSING after the second, and the motor and light commands of the two
    calls differ. *)
Lemma repeated_calls_not_idempotent :
  let snap := mkSnapshot false 0 in
  currentDoorState forced_at_zero = OPENING /\
  currentDoorState (repeated 1 snap 15000 forced_at_zero) = OPEN /\
  currentDoorState (repeated 2 snap 15000 forced_at_zero) = CLOSING /\
  actuators (repeated 1 snap 15000 forced_at_zero) = (HIGH, HIGH, LOW) /\
  actuators (repeated 2 snap 15000 forced_at_zero) = (LOW, LOW, LOW) /\
  currentDoorState (repeated 2 snap 15000 forced_at_zero) <>
    currentDoorState (repeated 1 snap 15000 forced_at_zero) /\
  actuators (repeated 2 snap 15000 forced_at_zero) <>
    actuators (repeated 1 snap 15000 forced_at_zero).
Proof. repeat split; try reflexivity; vm_compute; discriminate. Qed.

(** After two passes at one instant with one snapshot, a third changes
    neither the controller's variables nor the actuator commands. *)
Lemma settled_after_two (snap : SensorSnapshot) (now : Z) (m : Machine) :
  let m2 := evaluate snap now (evaluate snap now m) in
  controller (evaluate snap now m2) = controller m2 /\
  actuators (evaluate snap now m2) = actuators m2.
Proof.
  run_pass m snap;
    match goal with s : DoorState |- _ => destruct s end;
    match goal with b : bool |- _ => destruct b end;
    unfold_pass; split_timers;
    repeat match goal with H : motionDetected _ = _ |- _ => rewrite ?H end;
    unfold_pass; split_timers;
    repeat match goal with H : motionDetected _ = _ |- _ => rewrite ?H end;
    unfold_pass; split_timers;
    split; try reflexivity; congruence.
Qed.

Lemma repeated_succ (calls : nat) (snap : SensorSnapshot) (now : Z) (m : Machine) :
  repeated (S calls) snap now m = evaluate snap now (repeated calls snap now m).
Proof. reflexivity. Qed.

Lemma repeated_settled (k : nat) (snap : SensorSnapshot) (now : Z) (m : Machine) :
  controller (repeated (k + 2) snap now m) = controller (repeated 2 snap now m) /\
  actuators (repeated (k + 2) snap now m) = actuators (repeated 2 snap now m).
Proof.
  induction k as [| k [IHc IHa]].
  - split; reflexivity.
  - replace (S k + 2)%nat with (S (S (S k))) by lia.
    replace (k + 2)%nat with (S (S k)) in IHc, IHa by lia.
    rewrite (repeated_succ (S (S k))).
    rewrite (repeated_succ (S k)), (repeated_succ k) in *.
    destruct (settled_after_two snap now (repeated k snap now m)) as [Hc Ha].
    cbv zeta in Hc, Ha.
    split; [rewrite Hc; exact IHc | rewrite Ha; exact IHa].
Qed.

(** The buzzer command of a pass depends on the snapshot alone. *)
Lemma buzzer_follows_obstacle (snap : SensorSnapshot) (clk : Clock) (m : Machine) :
  pin_level (exec (control snap) clk m) BUZZER_PIN =
    (if obstacleDetected snap then HIGH else LOW).
Proof.
  run_pass m snap;
    match goal with s : DoorState |- _ => destruct s end;
    match goal with b : bool |- _ => destruct b end;
    unfold_pass; split_timers; reflexivity.
Qed.

(** C6, amended. Repeated calls with one snapshot and one [now] settle
    after at most two calls: from the second call on, every call ends with
    the same [currentDoorState] and timestamps and issues the same three
    actuator commands; the buzzer command is the same on every call from the
    first on.  (The first two calls may each make one transition.) *)
Theorem repeated_calls_settle
    (calls : nat) (snap : SensorSnapshot) (now : Z) (m : Machine) :
  (2 <= calls)%nat ->
  controller (repeated calls snap now m) = controller (repeated 2 snap now m) /\
  actuators (repeated calls snap now m) = actuators (repeated 2 snap now m) /\
  pin_level (repeated calls snap now m) BUZZER_PIN =
    pin_level (repeated 1 snap now m) BUZZER_PIN.
Proof.
  intros Hcalls.
  replace calls with ((calls - 2) + 2)%nat by lia.
  destruct (repeated_settled (calls - 2) snap now m) as [Hc Ha].
  split; [exact Hc | split; [exact Ha |]].
  replace (calls - 2 + 2)%nat with (S (S (calls - 2))) by lia.
  rewrite repeated_succ. change (repeated 1 snap now m) with (evaluate snap now m).
  unfold evaluate. rewrite !buzzer_follows_obstacle. reflexivity.
Qed.

Lemma repeated_calls_settle_witness :
  controller (repeated 5 (mkSnapshot false 0) 15000 forced_at_zero) =
  controller (repeated 2 (mkSnapshot false 0) 15000 forced_at_zero).
Proof.
  exact (proj1 (repeated_calls_settle 5 (mkSnapshot false 0) 15000 forced_at_zero
                  ltac:(lia))).
Defined.

(** ** Exhaustiveness *)

(** A cycle at a single instant follows one arrow of the state diagram. *)
Lemma evaluate_follows_diagram (snap : SensorSnapshot) (now : Z) (m : Machine) :
  may_follow (currentDoorState m) (currentDoorState (evaluate snap now m)) = true.
Proof.
  run_pass m snap;
    match goal with s : DoorState |- _ => destruct s end;
    match goal with b : bool |- _ => destruct b end;
    unfold_pass; split_timers; reflexivity.
Qed.

(** C7. A pass is a total function of the machine, the snapshot and the
    clock readings, and it ends in exactly one door state, one of CLOSED,
    OPENING, OPEN, CLOSING, whose enumerator value lies in 0..3. *)
Theorem pass_ends_in_one_of_four_states
    (snap : SensorSnapshot) (clk : Clock) (m : Machine) :
  exists! s : DoorState,
    currentDoorState (exec (control snap) clk m) = s /\
    In s all_DoorStates /\
    0 <= DoorState_value s <= 3.
Proof.
  exists (currentDoorState (exec (control snap) clk m)). split.
  - split; [reflexivity|].
    destruct (currentDoorState (exec (control snap) clk m));
      cbn; split; auto 6; lia.
  - intros s' [Hs' _]. exact Hs'.
Qed.

(** ** Process start *)

(** C8. When [setup] returns, before the first pass of [loop], the door
    state is CLOSED, [stateChangeTimestamp] is the reading of the clock at
    process start, and [lastMotionDetectedTimestamp] is 0; the two relays
    and the buzzer are LOW. *)
Theorem state_at_process_start (A0 A1 A3 A4 A5 : Z) (clk : Clock) :
  let m := exec (setup A0 A1 A3 A4 A5) clk power_on in
  currentDoorState m = CLOSED /\
  stateChangeTimestamp m = millis_at_start /\
  lastMotionDetectedTimestamp m = 0 /\
  actuators m = (LOW, LOW, LOW).
Proof. repeat split. Qed.

(** * Further properties of the sketch *)

(** ** Section 1 of [loop]: what the sensors say *)

Lemma count_active_counts (pins : list Z) :
  forall (active : Z) (clk : Clock) (m : Machine),
    fst (fst (count_active pins active clk m)) =
    active + Z.of_nat (List.length (pins_high m pins)).
Proof.
  induction pins as [| p rest IH]; intros active clk m.
  - cbn. lia.
  - cbn [count_active]. unfold bind, digitalRead, gets.
    specialize (IH (if Level_eqb (pin_level m p) HIGH then active + 1 else active)
                   clk m).
    destruct (count_active rest
                (if Level_eqb (pin_level m p) HIGH then active + 1 else active)
                clk m) as [[n m'] out].
    cbn [fst snd] in *. subst n. unfold pins_high. cbn [filter].
    destruct (Level_eqb (pin_level m p) HIGH); cbn [List.length]; lia.
Qed.

(** The snapshot a pass works with, in terms of the pin levels. *)
Lemma read_sensors_snapshot (A0 A1 A3 A4 A5 : Z) (clk : Clock) (m : Machine) :
  fst (fst (read_sensors A0 A1 A3 A4 A5 clk m)) =
  mkSnapshot
    (Level_eqb (pin_level m OBSTACLE_IR_PIN_1) LOW ||
     Level_eqb (pin_level m OBSTACLE_IR_PIN_2) LOW)
    (Z.of_nat (List.length (pins_high m (RADAR_SENSOR_PINS A0 A1 A3 A4 A5)))).
Proof.
  unfold read_sensors, bind, digitalRead, gets, ret.
  pose proof (count_active_counts (RADAR_SENSOR_PINS A0 A1 A3 A4 A5) 0 clk m) as Hn.
  destruct (Level_eqb (pin_level m OBSTACLE_IR_PIN_1) LOW);
    destruct (count_active (RADAR_SENSOR_PINS A0 A1 A3 A4 A5) 0 clk m)
      as [[n m'] out];
    cbn [fst snd orb] in *; subst n; reflexivity.
Qed.

Lemma Level_eqb_eq (a b : Level) : Level_eqb a b = true <-> a = b.
Proof. destruct a, b; cbn; split; intros; try reflexivity; discriminate. Qed.

(** X1. The obstacle flag of a pass is set exactly when one of the two IR
    sensors reads LOW. *)
Theorem obstacle_flag_iff_ir_low (A0 A1 A3 A4 A5 : Z) (clk : Clock) (m : Machine) :
  obstacleDetected (fst (fst (read_sensors A0 A1 A3 A4 A5 clk m))) = true <->
  pin_level m OBSTACLE_IR_PIN_1 = LOW \/ pin_level m OBSTACLE_IR_PIN_2 = LOW.
Proof.
  rewrite read_sensors_snapshot. cbn [obstacleDetected].
  rewrite orb_true_iff, !Level_eqb_eq. reflexivity.
Qed.

(** X2. The radar count of a pass is the number of radar pins that read
    HIGH, between 0 and 5, and motion is detected exactly when at least one
    of the five radar pins reads HIGH. *)
Theorem radar_count_and_motion (A0 A1 A3 A4 A5 : Z) (clk : Clock) (m : Machine) :
  let snap := fst (fst (read_sensors A0 A1 A3 A4 A5 clk m)) in
  activeRadarSensors snap =
    Z.of_nat (List.length (pins_high m (RADAR_SENSOR_PINS A0 A1 A3 A4 A5))) /\
  0 <= activeRadarSensors snap <= NUM_RADAR_SENSORS A0 A1 A3 A4 A5 /\
  NUM_RADAR_SENSORS A0 A1 A3 A4 A5 = 5 /\
  (motionDetected snap = true <->
   exists p, In p (RADAR_SENSOR_PINS A0 A1 A3 A4 A5) /\ pin_level m p = HIGH).
Proof.
  cbv zeta. rewrite read_sensors_snapshot.
  unfold motionDetected, NUM_RADAR_SENSORS, MOTION_SENSITIVITY_THRESHOLD.
  cbn [activeRadarSensors].
  set (pins := RADAR_SENSOR_PINS A0 A1 A3 A4 A5).
  assert (Hlen : (List.length (pins_high m pins) <= List.length pins)%nat)
    by apply filter_length_le.
  split; [reflexivity|]. split; [lia|]. split; [reflexivity|].
  rewrite Z.geb_le. split.
  - intros Hpos. destruct (pins_high m pins) as [| p rest] eqn:Hhigh.
    + cbn in Hpos. lia.
    + exists p. assert (Hin : In p (pins_high m pins)) by (rewrite Hhigh; left; reflexivity).
      unfold pins_high in Hin. apply filter_In in Hin. destruct Hin as [Hin Hp].
      split; [exact Hin | apply Level_eqb_eq; exact Hp].
  - intros (p & Hin & Hp).
    assert (Hin' : In p (pins_high m pins)).
    { unfold pins_high. apply filter_In. split; [exact Hin|]. apply Level_eqb_eq; exact Hp. }
    destruct (pins_high m pins); [destruct Hin' | cbn [List.length]; lia].
Qed.

(** ** Whole passes of [loop], from the pin levels *)

(** X3. A pass of [loop] that finds one of the IR sensors LOW ends with the
    door OPENING or OPEN, the motor relay HIGH and the buzzer HIGH, whatever
    the door was doing, whatever the radar pins and the clock read. *)
Theorem loop_opens_for_ir_obstacle
    (A0 A1 A3 A4 A5 : Z) (clk : Clock) (m : Machine) :
  pin_level m OBSTACLE_IR_PIN_1 = LOW \/ pin_level m OBSTACLE_IR_PIN_2 = LOW ->
  let m' := exec (loop A0 A1 A3 A4 A5) clk m in
  (currentDoorState m' = OPENING \/ currentDoorState m' = OPEN) /\
  pin_level m' DOOR_MOTOR_RELAY_PIN = HIGH /\
  pin_level m' BUZZER_PIN = HIGH.
Proof.
  intros Hir m'. subst m'.
  destruct (loop_is_control_of_snapshot A0 A1 A3 A4 A5 clk m) as [Hm _].
  cbv zeta in Hm. rewrite Hm. clear Hm.
  assert (Hobs : obstacleDetected (fst (fst (read_sensors A0 A1 A3 A4 A5 clk m))) = true).
  { rewrite read_sensors_snapshot. cbn [obstacleDetected].
    apply orb_true_iff. rewrite !Level_eqb_eq. exact Hir. }
  clear Hir. revert Hobs.
  generalize (fst (fst (read_sensors A0 A1 A3 A4 A5 clk m))). intros snap Hobs.
  run_pass m snap;
    match goal with s : DoorState |- _ => destruct s end;
    unfold_pass; split_timers; repeat split; auto.
Qed.

Lemma loop_opens_for_ir_obstacle_witness :
  pin_level (exec (loop 14 15 17 18 19) (fun n => 7000 + Z.of_nat n) power_on)
            DOOR_MOTOR_RELAY_PIN = HIGH.
Proof.
  exact (proj1 (proj2
    (loop_opens_for_ir_obstacle 14 15 17 18 19 (fun n => 7000 + Z.of_nat n)
       power_on (or_introl eq_refl)))).
Defined.

(** X4. A pass of [loop] over a CLOSED door with both IR sensors HIGH and
    every radar pin LOW changes none of the controller's variables, does not
    read the clock, prints nothing, and writes LOW once to the buzzer, the
    motor relay and the status light relay, in this order. *)
Theorem loop_idle_when_closed
    (A0 A1 A3 A4 A5 : Z) (clk : Clock) (m : Machine) :
  currentDoorState m = CLOSED ->
  pin_level m OBSTACLE_IR_PIN_1 = HIGH ->
  pin_level m OBSTACLE_IR_PIN_2 = HIGH ->
  Forall (fun p => pin_level m p = LOW) (RADAR_SENSOR_PINS A0 A1 A3 A4 A5) ->
  let m' := exec (loop A0 A1 A3 A4 A5) clk m in
  controller m' = controller m /\
  millis_calls m' = millis_calls m /\
  emitted (loop A0 A1 A3 A4 A5) clk m =
    [Wrote BUZZER_PIN LOW; Wrote DOOR_MOTOR_RELAY_PIN LOW;
     Wrote STATUS_LIGHT_RELAY_PIN LOW] /\
  actuators m' = (LOW, LOW, LOW).
Proof.
  intros Hstate Hir1 Hir2 Hradar m'. subst m'.
  destruct (loop_is_control_of_snapshot A0 A1 A3 A4 A5 clk m) as [Hm Hout].
  cbv zeta in Hm, Hout. rewrite Hm, Hout. clear Hm Hout.
  rewrite read_sensors_snapshot, Hir1, Hir2.
  assert (Hnone : pins_high m (RADAR_SENSOR_PINS A0 A1 A3 A4 A5) = []).
  { unfold pins_high. induction Hradar as [| p rest Hp _ IH]; [reflexivity|].
    cbn [filter]. rewrite Hp. exact IH. }
  rewrite Hnone. clear Hnone Hradar Hir1 Hir2.
  destruct m as [s since last modes levels calls].
  cbn [currentDoorState] in Hstate. subst s.
  repeat split.
Qed.

Lemma loop_idle_when_closed_witness :
  controller
    (exec (loop 14 15 17 18 19) (steady 99)
       (mkMachine CLOSED 0 0 (fun _ => INPUT)
          (fun p => if (p =? 7) || (p =? 8) then HIGH else LOW) 0))
  = (CLOSED, 0, 0).
Proof.
  refine (proj1 (loop_idle_when_closed 14 15 17 18 19 (steady 99)
           (mkMachine CLOSED 0 0 (fun _ => INPUT)
              (fun p => if (p =? 7) || (p =? 8) then HIGH else LOW) 0)
           eq_refl eq_refl eq_refl _)).
  repeat constructor.
Defined.

(** ** [setup] *)

(** X5. From any machine, [setup] leaves the controller's variables alone,
    makes the two IR pins inputs and the three driven pins outputs, makes
    every radar pin that is not a driven pin an input, leaves the motor
    relay, the status light relay and the buzzer LOW, and sends out, in
    order, the greeting, the three LOW writes and the "initialized" line. *)
Theorem setup_configures_board
    (A0 A1 A3 A4 A5 : Z) (clk : Clock) (m : Machine) :
  let m' := exec (setup A0 A1 A3 A4 A5) clk m in
  controller m' = controller m /\
  pin_mode m' OBSTACLE_IR_PIN_1 = INPUT /\
  pin_mode m' OBSTACLE_IR_PIN_2 = INPUT /\
  pin_mode m' DOOR_MOTOR_RELAY_PIN = OUTPUT /\
  pin_mode m' STATUS_LIGHT_RELAY_PIN = OUTPUT /\
  pin_mode m' BUZZER_PIN = OUTPUT /\
  Forall (fun p => pin_mode m' p = if is_actuator_pin p then OUTPUT else INPUT)
         (RADAR_SENSOR_PINS A0 A1 A3 A4 A5) /\
  actuators m' = (LOW, LOW, LOW) /\
  emitted (setup A0 A1 A3 A4 A5) clk m =
    [Printed "Initializing Automated Ventilation Door System v2.0...";
     Wrote DOOR_MOTOR_RELAY_PIN LOW; Wrote STATUS_LIGHT_RELAY_PIN LOW;
     Wrote BUZZER_PIN LOW;
     Printed "System Initialized. Door is CLOSED."].
Proof.
  destruct m as [s since last modes levels calls].
  assert (Hmode : forall p,
    pin_mode (exec (setup A0 A1 A3 A4 A5) clk
                (mkMachine s since last modes levels calls)) p =
    (if p =? BUZZER_PIN then OUTPUT
     else if p =? STATUS_LIGHT_RELAY_PIN then OUTPUT
     else if p =? DOOR_MOTOR_RELAY_PIN then OUTPUT
     else if p =? OBSTACLE_IR_PIN_2 then INPUT
     else if p =? OBSTACLE_IR_PIN_1 then INPUT
     else if p =? A4 then INPUT
     else if p =? A3 then INPUT
     else if p =? A5 then INPUT
     else if p =? A1 then INPUT
     else if p =? A0 then INPUT
     else modes p)) by reflexivity.
  cbv zeta. repeat split.
  unfold RADAR_SENSOR_PINS.
  repeat constructor; rewrite Hmode; unfold is_actuator_pin;
    rewrite ?Z.eqb_refl;
    repeat match goal with
      | |- context [?a =? ?b] => destruct (a =? b)
      end; reflexivity.
Qed.

(** ** Which variable a pass writes, and when *)

(** X6. [lastMotionDetectedTimestamp] is written by the motion step only:
    after a pass it is the first clock reading of the pass when motion was
    detected and its old value otherwise, in every door state, with or
    without obstacle. *)
Theorem last_motion_written_by_motion_only
    (snap : SensorSnapshot) (clk : Clock) (m : Machine) :
  lastMotionDetectedTimestamp (exec (control snap) clk m) =
    (if motionDetected snap then clk (millis_calls m)
     else lastMotionDetectedTimestamp m).
Proof.
  run_pass m snap;
    match goal with s : DoorState |- _ => destruct s end;
    match goal with b : bool |- _ => destruct b end;
    unfold_pass; split_timers;
    repeat match goal with H : motionDetected _ = _ |- _ => rewrite ?H end;
    reflexivity.
Qed.

(** X7. [stateChangeTimestamp] is restarted exactly when the door enters
    OPENING or CLOSING from another state; a cycle that ends in OPEN or
    CLOSED, or that leaves the state as it was, keeps it. *)
Theorem travel_timestamp_restarts_on_entry
    (snap : SensorSnapshot) (now : Z) (m : Machine) :
  let m' := evaluate snap now m in
  stateChangeTimestamp m' =
    (if negb (DoorState_eqb (currentDoorState m') (currentDoorState m)) &&
        (DoorState_eqb (currentDoorState m') OPENING ||
         DoorState_eqb (currentDoorState m') CLOSING)
     then now else stateChangeTimestamp m).
Proof.
  run_pass m snap;
    match goal with s : DoorState |- _ => destruct s end;
    match goal with b : bool |- _ => destruct b end;
    unfold_pass; split_timers; reflexivity.
Qed.

(** X8. What one cycle never does: the door is OPEN after a cycle only if
    it was OPENING or OPEN before it, CLOSED only if it was CLOSING or
    CLOSED, CLOSING only if it was OPEN or CLOSING, and an OPEN door is never
    put back to OPENING. *)
Theorem cycle_never_skips_a_state
    (snap : SensorSnapshot) (now : Z) (m : Machine) :
  let s := currentDoorState m in
  let s' := currentDoorState (evaluate snap now m) in
  (s' = OPEN -> s = OPENING \/ s = OPEN) /\
  (s' = CLOSED -> s = CLOSING \/ s = CLOSED) /\
  (s' = CLOSING -> s = OPEN \/ s = CLOSING) /\
  (s' = OPENING -> s <> OPEN).
Proof.
  pose proof (evaluate_follows_diagram snap now m) as Harrow.
  cbv zeta.
  destruct (currentDoorState m), (currentDoorState (evaluate snap now m));
    cbn in Harrow; try discriminate;
    repeat split; intros; auto; discriminate.
Qed.

(** ** The door while CLOSED and while CLOSING *)

(** X9. A CLOSED door with no obstacle opens on motion and on nothing
    else: with motion the cycle ends in OPENING with both timestamps at
    [now]; without motion the controller's variables are unchanged. *)
Theorem closed_opens_on_motion
    (snap : SensorSnapshot) (now : Z) (m : Machine) :
  currentDoorState m = CLOSED ->
  obstacleDetected snap = false ->
  controller (evaluate snap now m) =
    (if motionDetected snap then (OPENING, now, now) else controller m).
Proof.
  intros Hstate Hobs.
  run_pass m snap; split_timers;
    repeat match goal with H : motionDetected _ = _ |- _ => rewrite ?H end;
    reflexivity.
Qed.

Lemma closed_opens_on_motion_witness :
  controller (evaluate (mkSnapshot false 2) 777 power_on) = (OPENING, 777, 777).
Proof.
  exact (closed_opens_on_motion (mkSnapshot false 2) 777 power_on eq_refl eq_refl).
Defined.

(** X10. Motion does not interrupt closing: a CLOSING door with no obstacle
    ends the cycle in CLOSED exactly when [now - T >= DOOR_TRAVEL_TIME_MS]
    and in CLOSING otherwise, with [stateChangeTimestamp] unchanged,
    whatever the radar count. *)
Theorem closing_ignores_motion
    (snap : SensorSnapshot) (now T : Z) (m : Machine) :
  currentDoorState m = CLOSING ->
  stateChangeTimestamp m = T ->
  obstacleDetected snap = false ->
  0 <= T <= now -> now < ulong_modulus ->
  let m' := evaluate snap now m in
  stateChangeTimestamp m' = T /\
  (currentDoorState m' = CLOSED <-> now - T >= DOOR_TRAVEL_TIME_MS) /\
  (currentDoorState m' = CLOSING <-> now - T < DOOR_TRAVEL_TIME_MS).
Proof.
  intros Hstate HT Hobs Hrange Hnow.
  assert (Hlimit : 0 <= DOOR_TRAVEL_TIME_MS < ulong_modulus)
    by (unfold DOOR_TRAVEL_TIME_MS, ulong_modulus; lia).
  pose proof (timer_expired_iff now T _ Hrange Hnow Hlimit) as Hexp.
  pose proof (timer_running_iff now T _ Hrange Hnow Hlimit) as Hrun.
  run_pass m snap;
    (destruct (ulong_sub now T >=? ulong_of_long DOOR_TRAVEL_TIME_MS) eqn:E;
     unfold_pass;
     [ assert (now - T >= DOOR_TRAVEL_TIME_MS) by (apply Hexp; reflexivity)
     | assert (now - T < DOOR_TRAVEL_TIME_MS) by (apply Hrun; reflexivity) ];
     repeat split; intros; try reflexivity; try assumption;
     try discriminate; lia).
Qed.

Lemma closing_ignores_motion_witness :
  currentDoorState
    (evaluate (mkSnapshot false 4) 31000
       (mkMachine CLOSING 30000 20000 (fun _ => INPUT) (fun _ => LOW) 0))
  = CLOSING.
Proof.
  apply (proj2 (proj2 (closing_ignores_motion (mkSnapshot false 4) 31000 30000
           (mkMachine CLOSING 30000 20000 (fun _ => INPUT) (fun _ => LOW) 0)
           eq_refl eq_refl eq_refl ltac:(lia) ltac:(reflexivity)))).
  unfold DOOR_TRAVEL_TIME_MS. lia.
Defined.

(** ** More on the OPEN door *)

(** One pass in OPEN that detects motion. *)
Lemma open_pass_motion (snap : SensorSnapshot) (now : Z) (m : Machine) :
  currentDoorState m = OPEN ->
  motionDetected snap = true ->
  controller (evaluate snap now m) = (OPEN, stateChangeTimestamp m, now).
Proof.
  intros Hstate Hmotion.
  run_pass m snap; try discriminate;
    match goal with b : bool |- _ => destruct b end;
    unfold_pass; split_timers; reflexivity.
Qed.

(** X11. Motion holds the door open: through any cycles that all detect
    motion, with or without obstacle and at any instants, an OPEN door stays
    OPEN, [stateChangeTimestamp] is untouched and
    [lastMotionDetectedTimestamp] ends at the instant of the last cycle. *)
Theorem motion_holds_door_open
    (cycles : list (SensorSnapshot * Z)) (m : Machine) :
  currentDoorState m = OPEN ->
  Forall (fun c => motionDetected (fst c) = true) cycles ->
  controller (run cycles m) =
    (OPEN, stateChangeTimestamp m,
     last_instant (lastMotionDetectedTimestamp m) cycles).
Proof.
  intros Hstate Hcycles. revert m Hstate.
  induction Hcycles as [| [snap now] rest Hmotion _ IH]; intros m Hstate.
  - cbn. unfold controller. rewrite Hstate. reflexivity.
  - cbn [run last_instant]. cbn [fst] in Hmotion.
    pose proof (open_pass_motion snap now m Hstate Hmotion) as Hpass.
    unfold controller in Hpass. injection Hpass as Hs Hts Hlast.
    rewrite (IH _ Hs), Hts, Hlast. reflexivity.
Qed.

Lemma motion_holds_door_open_witness :
  controller
    (run [(mkSnapshot false 1, 40000); (mkSnapshot true 2, 90000)]
         (mkMachine OPEN 0 20000 (fun _ => INPUT) (fun _ => LOW) 0))
  = (OPEN, 0, 90000).
Proof.
  refine (motion_holds_door_open
            [(mkSnapshot false 1, 40000); (mkSnapshot true 2, 90000)]
            (mkMachine OPEN 0 20000 (fun _ => INPUT) (fun _ => LOW) 0)
            eq_refl _).
  repeat constructor.
Defined.

(** X12. An OPEN door with no obstacle and no motion ends the cycle in
    CLOSING exactly when [now - L >= DOOR_OPEN_DURATION_MS], [L] the last
    motion timestamp, and in OPEN otherwise. *)
Theorem open_closes_iff_dwell_elapsed
    (snap : SensorSnapshot) (now L : Z) (m : Machine) :
  currentDoorState m = OPEN ->
  lastMotionDetectedTimestamp m = L ->
  obstacleDetected snap = false ->
  motionDetected snap = false ->
  0 <= L <= now -> now < ulong_modulus ->
  let m' := evaluate snap now m in
  (currentDoorState m' = CLOSING <-> now - L >= DOOR_OPEN_DURATION_MS) /\
  (currentDoorState m' = OPEN <-> now - L < DOOR_OPEN_DURATION_MS).
Proof.
  intros Hstate HL Hobs Hmotion Hrange Hnow m'.
  destruct (open_pass_clear snap now m Hstate Hobs Hmotion) as [_ Hnext].
  fold m' in Hnext. rewrite HL in Hnext.
  assert (Hlimit : 0 <= DOOR_OPEN_DURATION_MS < ulong_modulus)
    by (unfold DOOR_OPEN_DURATION_MS, ulong_modulus; lia).
  pose proof (timer_expired_iff now L _ Hrange Hnow Hlimit) as Hexp.
  pose proof (timer_running_iff now L _ Hrange Hnow Hlimit) as Hrun.
  destruct (ulong_sub now L >=? ulong_of_long DOOR_OPEN_DURATION_MS);
    injection Hnext as Hs _; rewrite Hs.
  - assert (now - L >= DOOR_OPEN_DURATION_MS) by (apply Hexp; reflexivity).
    repeat split; intros; try reflexivity; try assumption; try discriminate; lia.
  - assert (now - L < DOOR_OPEN_DURATION_MS) by (apply Hrun; reflexivity).
    repeat split; intros; try reflexivity; try assumption; try discriminate; lia.
Qed.

Lemma open_closes_iff_dwell_elapsed_witness :
  currentDoorState
    (evaluate (mkSnapshot false 0) 29999
       (mkMachine OPEN 0 20000 (fun _ => INPUT) (fun _ => LOW) 0))
  = OPEN.
Proof.
  apply (proj2 (open_closes_iff_dwell_elapsed (mkSnapshot false 0) 29999 20000
           (mkMachine OPEN 0 20000 (fun _ => INPUT) (fun _ => LOW) 0)
           eq_refl eq_refl eq_refl eq_refl ltac:(lia) ltac:(reflexivity))).
  unfold DOOR_OPEN_DURATION_MS. lia.
Defined.

(** ** The clock rolling over *)

Lemma ulong_sub_rollover (now since : Z) :
  0 <= now -> now < since -> since < ulong_modulus ->
  ulong_sub now since = now + ulong_modulus - since.
Proof.
  intros H0 Hlt Hs. unfold ulong_sub.
  replace (now - since) with ((now + ulong_modulus - since) + (-1) * ulong_modulus)
    by ring.
  rewrite Z.mod_add by (unfold ulong_modulus; lia).
  apply Z.mod_small. lia.
Qed.

(** X13. The timers survive the roll-over of [millis()]: when the clock
    has wrapped since the timestamps were taken ([now] below both), a cycle
    without obstacle and motion still makes each timed move exactly when the
    time really elapsed, [now + 2^32 - timestamp], reaches the limit. *)
Theorem timers_survive_rollover
    (snap : SensorSnapshot) (now : Z) (m : Machine) :
  obstacleDetected snap = false ->
  motionDetected snap = false ->
  0 <= now ->
  now < stateChangeTimestamp m < ulong_modulus ->
  now < lastMotionDetectedTimestamp m < ulong_modulus ->
  let s' := currentDoorState (evaluate snap now m) in
  match currentDoorState m with
  | CLOSED => s' = CLOSED
  | OPENING =>
      s' = OPEN <->
      now + ulong_modulus - stateChangeTimestamp m >= DOOR_TRAVEL_TIME_MS
  | OPEN =>
      s' = CLOSING <->
      now + ulong_modulus - lastMotionDetectedTimestamp m >= DOOR_OPEN_DURATION_MS
  | CLOSING =>
      s' = CLOSED <->
      now + ulong_modulus - stateChangeTimestamp m >= DOOR_TRAVEL_TIME_MS
  end.
Proof.
  intros Hobs Hmotion Hnow Hts Hlast.
  pose proof (ulong_sub_rollover now (stateChangeTimestamp m) Hnow
                (proj1 Hts) (proj2 Hts)) as Ets.
  pose proof (ulong_sub_rollover now (lastMotionDetectedTimestamp m) Hnow
                (proj1 Hlast) (proj2 Hlast)) as Elast.
  run_pass m snap; try discriminate;
    match goal with s : DoorState |- _ => destruct s end;
    unfold_pass; try reflexivity;
    rewrite ?Ets, ?Elast, ?travel_limit, ?dwell_limit;
    unfold DOOR_TRAVEL_TIME_MS, DOOR_OPEN_DURATION_MS;
    match goal with
    | |- context [if ?a >=? ?b then _ else _] =>
        destruct (a >=? b) eqn:E; unfold_pass;
        [ rewrite Z.geb_le in E | rewrite Z.geb_leb in E; apply Z.leb_gt in E ]
    end;
    split; intros; try reflexivity; try discriminate; lia.
Qed.

Lemma timers_survive_rollover_witness :
  currentDoorState
    (evaluate (mkSnapshot false 0) 5000
       (mkMachine OPENING 4294957296 4294957296 (fun _ => INPUT) (fun _ => LOW) 0))
  = OPEN.
Proof.
  apply (timers_survive_rollover (mkSnapshot false 0) 5000
           (mkMachine OPENING 4294957296 4294957296 (fun _ => INPUT) (fun _ => LOW) 0)
           eq_refl eq_refl ltac:(lia)
           (conj eq_refl eq_refl) (conj eq_refl eq_refl)).
  vm_compute. discriminate.
Defined.

(** ** The serial log *)

(** X14. A cycle prints at most one line, and it prints one exactly when it
    changes the door state. *)
Theorem line_printed_iff_state_changed
    (snap : SensorSnapshot) (now : Z) (m : Machine) :
  let printed := lines_printed (emitted (control snap) (steady now) m) in
  (List.length printed <= 1)%nat /\
  (printed = [] <-> currentDoorState (evaluate snap now m) = currentDoorState m).
Proof.
  run_pass m snap;
    match goal with s : DoorState |- _ => destruct s end;
    match goal with b : bool |- _ => destruct b end;
    unfold_pass; split_timers; cbn [lines_printed List.length];
    (split; [lia | split; intros; try reflexivity; discriminate]).
Qed.

(** ** What a pass leaves alone *)

(** The control logic drives the three actuator pins and nothing else. *)
Lemma control_drives_actuators_only (snap : SensorSnapshot) (clk : Clock) (m : Machine) :
  pin_mode (exec (control snap) clk m) = pin_mode m /\
  forall pin, is_actuator_pin pin = false ->
    pin_level (exec (control snap) clk m) pin = pin_level m pin.
Proof.
  run_pass m snap;
    match goal with s : DoorState |- _ => destruct s end;
    match goal with b : bool |- _ => destruct b end;
    unfold_pass; split_timers;
    (split; [reflexivity |]);
    intros pin Hpin; unfold is_actuator_pin in Hpin;
    apply orb_false_iff in Hpin; destruct Hpin as [Hpin Hbuzzer];
    apply orb_false_iff in Hpin; destruct Hpin as [Hmotor Hlight];
    unfold update; rewrite Hmotor, Hlight, Hbuzzer; reflexivity.
Qed.

(** X15. A pass of [loop] changes no pin direction and no pin level other
    than those of the motor relay, the status light relay and the buzzer. *)
Theorem loop_drives_actuators_only
    (A0 A1 A3 A4 A5 : Z) (clk : Clock) (m : Machine) :
  let m' := exec (loop A0 A1 A3 A4 A5) clk m in
  pin_mode m' = pin_mode m /\
  forall pin, is_actuator_pin pin = false -> pin_level m' pin = pin_level m pin.
Proof.
  destruct (loop_is_control_of_snapshot A0 A1 A3 A4 A5 clk m) as [Hm _].
  cbv zeta in *. rewrite Hm. apply control_drives_actuators_only.
Qed.

(** ** Timestamps over a run *)

(** X16. Timestamps never lie ahead of the clock: from a machine whose two
    timestamps are clock readings not after [t0], after any cycles whose
    instants do not go back from [t0] both timestamps are non-negative and
    not after the instant of the last cycle. *)
Theorem timestamps_never_ahead
    (cycles : list (SensorSnapshot * Z)) (t0 : Z) (m : Machine) :
  0 <= stateChangeTimestamp m <= t0 ->
  0 <= lastMotionDetectedTimestamp m <= t0 ->
  in_order t0 cycles ->
  0 <= stateChangeTimestamp (run cycles m) <= last_instant t0 cycles /\
  0 <= lastMotionDetectedTimestamp (run cycles m) <= last_instant t0 cycles.
Proof.
  revert t0 m.
  induction cycles as [| [snap now] rest IH]; intros t0 m Hts Hlast Horder.
  - cbn. split; assumption.
  - cbn [run last_instant]. cbn [in_order] in Horder.
    destruct Horder as [Hle Hrest].
    assert (Hts' : 0 <= stateChangeTimestamp m <= now) by lia.
    assert (Hlast' : 0 <= lastMotionDetectedTimestamp m <= now) by lia.
    destruct (timestamps_stay_in_past snap now m Hts' Hlast') as [H1 H2].
    apply IH; assumption.
Qed.

Lemma timestamps_never_ahead_witness :
  0 <= stateChangeTimestamp
         (run [(mkSnapshot false 1, 100); (mkSnapshot true 0, 20000)] power_on)
    <= 20000.
Proof.
  refine (proj1 (timestamps_never_ahead
            [(mkSnapshot false 1, 100); (mkSnapshot true 0, 20000)] 0 power_on
            _ _ _)).
  - cbn. lia.
  - cbn. lia.
  - cbn. lia.
Defined.

(** ** A whole door cycle *)

(** One pass in CLOSING without obstacle. *)
Lemma closing_pass (snap : SensorSnapshot) (now : Z) (m : Machine) :
  currentDoorState m = CLOSING ->
  obstacleDetected snap = false ->
  stateChangeTimestamp (evaluate snap now m) = stateChangeTimestamp m /\
  currentDoorState (evaluate snap now m) =
    (if ulong_sub now (stateChangeTimestamp m) >=? ulong_of_long DOOR_TRAVEL_TIME_MS
     then CLOSED else CLOSING).
Proof.
  intros Hstate Hobs.
  run_pass m snap; split_timers; split; reflexivity.
Qed.

(** A pass that detects no motion keeps the motion timestamp. *)
Lemma idle_pass_keeps_last_motion (snap : SensorSnapshot) (now : Z) (m : Machine) :
  motionDetected snap = false ->
  lastMotionDetectedTimestamp (evaluate snap now m) = lastMotionDetectedTimestamp m.
Proof.
  intros Hmotion.
  run_pass m snap; try discriminate;
    match goal with s : DoorState |- _ => destruct s end;
    match goal with b : bool |- _ => destruct b end;
    unfold_pass; split_timers; reflexivity.
Qed.

(** X17. One motion, one door cycle.  A CLOSED door that sees motion at [T]
    and nothing afterwards is OPENING after the cycle at [T], OPEN after the
    first cycle at or after [T + DOOR_TRAVEL_TIME_MS], already CLOSING after
    the very next cycle (the dwell time, counted from the motion at [T], is
    shorter than the travel time and has run out), and CLOSED after a cycle
    at least the travel time later; the timestamps then hold the start of the
    closing and the instant of the motion. *)
Theorem single_motion_door_cycle
    (m : Machine) (moving idle : SensorSnapshot) (T T1 T2 T3 : Z) :
  currentDoorState m = CLOSED ->
  obstacleDetected moving = false -> motionDetected moving = true ->
  obstacleDetected idle = false -> motionDetected idle = false ->
  0 <= T -> T + DOOR_TRAVEL_TIME_MS <= T1 -> T1 <= T2 ->
  T2 + DOOR_TRAVEL_TIME_MS <= T3 -> T3 < ulong_modulus ->
  currentDoorState (run [(moving, T)] m) = OPENING /\
  currentDoorState (run [(moving, T); (idle, T1)] m) = OPEN /\
  currentDoorState (run [(moving, T); (idle, T1); (idle, T2)] m) = CLOSING /\
  controller (run [(moving, T); (idle, T1); (idle, T2); (idle, T3)] m) =
    (CLOSED, T2, T).
Proof.
  intros Hstate Hobs Hmove Hobs' Hidle H0 H1 H2 H3 Hmax.
  unfold DOOR_TRAVEL_TIME_MS in H1, H3.
  assert (Hm : ulong_modulus = 4294967296) by reflexivity.
  cbn [run].
  assert (Hm1 : controller (evaluate moving T m) = (OPENING, T, T)).
  { clear - Hstate Hobs Hmove.
    run_pass m moving; try discriminate; split_timers; reflexivity. }
  unfold controller in Hm1. injection Hm1 as Hs1 Hts1 Hlast1.
  set (m1 := evaluate moving T m) in *.
  (* opening finished at T1 *)
  destruct (opening_pass idle T1 m1 Hs1) as [Hts2 Hs2].
  rewrite Hts1 in Hts2, Hs2.
  assert (E1 : (ulong_sub T1 T >=? ulong_of_long DOOR_TRAVEL_TIME_MS) = true).
  { apply timer_expired_iff; unfold DOOR_TRAVEL_TIME_MS; lia. }
  rewrite E1 in Hs2.
  pose proof (idle_pass_keeps_last_motion idle T1 m1 Hidle) as Hlast2.
  rewrite Hlast1 in Hlast2.
  set (m2 := evaluate idle T1 m1) in *.
  (* dwell already over at T2 *)
  destruct (open_pass_clear idle T2 m2 Hs2 Hobs' Hidle) as [Hlast3 Hnext3].
  rewrite Hlast2 in Hlast3, Hnext3.
  assert (E2 : (ulong_sub T2 T >=? ulong_of_long DOOR_OPEN_DURATION_MS) = true).
  { apply timer_expired_iff; unfold DOOR_OPEN_DURATION_MS; lia. }
  rewrite E2 in Hnext3. injection Hnext3 as Hs3 Hts3.
  set (m3 := evaluate idle T2 m2) in *.
  (* closing finished at T3 *)
  destruct (closing_pass idle T3 m3 Hs3 Hobs') as [Hts4 Hs4].
  rewrite Hts3 in Hts4, Hs4.
  assert (E3 : (ulong_sub T3 T2 >=? ulong_of_long DOOR_TRAVEL_TIME_MS) = true).
  { apply timer_expired_iff; unfold DOOR_TRAVEL_TIME_MS; lia. }
  rewrite E3 in Hs4.
  pose proof (idle_pass_keeps_last_motion idle T3 m3 Hidle) as Hlast4.
  rewrite Hlast3 in Hlast4.
  unfold controller. rewrite Hs4, Hts4, Hlast4.
  repeat split; assumption.
Qed.

Lemma single_motion_door_cycle_witness :
  controller
    (run [(mkSnapshot false 1, 1000); (mkSnapshot false 0, 16000);
          (mkSnapshot false 0, 16050); (mkSnapshot false 0, 31050)] power_on)
  = (CLOSED, 16050, 1000).
Proof.
  refine (proj2 (proj2 (proj2 (single_motion_door_cycle power_on
            (mkSnapshot false 1) (mkSnapshot false 0) 1000 16000 16050 31050
            eq_refl eq_refl eq_refl eq_refl eq_refl _ _ _ _ _))));
    unfold DOOR_TRAVEL_TIME_MS; try lia; reflexivity.
Defined.

(** ** An invariant of the running board *)

(** After the control logic the two relays agree with the door state. *)
Lemma control_sets_relays (snap : SensorSnapshot) (clk : Clock) (m : Machine) :
  relays_match_state (exec (control snap) clk m).
Proof.
  unfold relays_match_state.
  run_pass m snap;
    match goal with s : DoorState |- _ => destruct s end;
    match goal with b : bool |- _ => destruct b end;
    unfold_pass; split_timers; split; reflexivity.
Qed.

(** X18. Between passes the relays always agree with the door state: on
    every machine the board reaches from power-on through [setup], passes of
    [loop] and changes of the sensor pins, the motor relay is HIGH exactly
    in OPENING and OPEN, the status light relay is HIGH exactly in OPEN, and
    the three driven pins are outputs. *)
Theorem relays_agree_with_state_between_passes
    (A0 A1 A3 A4 A5 : Z) (m : Machine) :
  reachable A0 A1 A3 A4 A5 m ->
  relays_match_state m /\
  pin_mode m DOOR_MOTOR_RELAY_PIN = OUTPUT /\
  pin_mode m STATUS_LIGHT_RELAY_PIN = OUTPUT /\
  pin_mode m BUZZER_PIN = OUTPUT.
Proof.
  induction 1 as [clk | m m' _ IH Hmoved | clk m _ IH].
  - repeat split.
  - destruct IH as ((Hmotor & Hlight) & Hmodes).
    destruct Hmoved as (Hctrl & Hmode & Hlevels).
    unfold controller in Hctrl. injection Hctrl as Hs _ _.
    unfold relays_match_state.
    rewrite Hmode, Hs, !Hlevels by reflexivity.
    repeat split; tauto.
  - destruct (loop_is_control_of_snapshot A0 A1 A3 A4 A5 clk m) as [Hm _].
    cbv zeta in Hm. rewrite Hm.
    destruct (control_drives_actuators_only
                (fst (fst (read_sensors A0 A1 A3 A4 A5 clk m))) clk m) as [Hmode _].
    rewrite Hmode. split; [apply control_sets_relays | tauto].
Qed.

Lemma relays_agree_with_state_between_passes_witness :
  relays_match_state
    (exec (loop 14 15 17 18 19) (steady 250)
       (exec (setup 14 15 17 18 19) (steady 0) power_on)).
Proof.
  exact (proj1 (relays_agree_with_state_between_passes 14 15 17 18 19 _
    (reach_loop 14 15 17 18 19 (steady 250) _
       (reach_setup 14 15 17 18 19 (steady 0))))).
Defined.
